(* Verification model of the EduDesk password-reset endpoints
   (DEPLOYMENT_GUIDE.md: tables [users], [password_resets], handlers
   POST /api/forgot-password and POST /api/reset-password) and of the
   client helpers of EduDesk/api-config.js. *)

From Stdlib Require Import String Ascii List ZArith Bool Lia.
Set Warnings "-register-all".

Import ListNotations.
Open Scope string_scope.
Open Scope Z_scope.

(* ------------------------------------------------------------------ *)
(** * The database (PostgreSQL schema of the deployment guide) *)

Module DB.

(** [users (id, name, email UNIQUE, password_hash, created_at)]; only the
    columns the handlers read or write are kept. *)
Record user := mkUser { u_email : string; u_password_hash : string }.

(** [password_resets (id, email, token UNIQUE, expires_at, created_at)]
    Times are milliseconds since the epoch. *)
Record reset_row := mkReset {
  r_email : string;
  r_token : string;
  r_expires_at : Z;
  r_created_at : Z
}.

Record db := mkDB { users : list user; password_resets : list reset_row }.

(** Result of one SQL statement: rows, or an error raised by the driver. *)
Inductive qres (A : Type) := QOk (a : A) | QErr (msg : string).
Arguments QOk {A} a.
Arguments QErr {A} msg.

(** [SELECT * FROM users WHERE email = $1] *)
Definition select_users_by_email (d : db) (e : string) : list user :=
  filter (fun u => String.eqb (u_email u) e) (users d).

(** [INSERT INTO password_resets (email, token, expires_at) VALUES ($1,$2,$3)];
    [created_at] takes its DEFAULT [CURRENT_TIMESTAMP], the database clock
    [db_now]; the UNIQUE constraint on [token] makes a duplicate insert fail. *)
Definition insert_reset (d : db) (e tok : string) (exp db_now : Z) : qres db :=
  if existsb (fun r => String.eqb (r_token r) tok) (password_resets d)
  then QErr "duplicate key value violates unique constraint"
  else QOk (mkDB (users d)
                 (password_resets d ++ [mkReset e tok exp db_now])).

(** [SELECT * FROM password_resets WHERE token = $1 AND expires_at > NOW()] *)
Definition select_valid_resets (d : db) (tok : string) (db_now : Z)
  : list reset_row :=
  filter (fun r => String.eqb (r_token r) tok && (db_now <? r_expires_at r))
         (password_resets d).

(** [UPDATE users SET password_hash = $1 WHERE email = $2] *)
Definition update_password_hash (d : db) (h e : string) : db :=
  mkDB (map (fun u => if String.eqb (u_email u) e
                      then mkUser (u_email u) h else u) (users d))
       (password_resets d).

(** [DELETE FROM password_resets WHERE token = $1] *)
Definition delete_resets (d : db) (tok : string) : db :=
  mkDB (users d)
       (filter (fun r => negb (String.eqb (r_token r) tok)) (password_resets d)).

End DB.
Import DB.

(* ------------------------------------------------------------------ *)
(** * The request handler monad

    Each [await db.query(...)] is a separate auto-committed statement.
    A handler runs against a store and a crash budget: the number of
    statements the process executes before it dies.  A crash leaves every
    statement committed so far in place.  A rejected promise that nothing
    catches ([Thrown]) ends the async Express handler without a response. *)

Module Handler.

Inductive res (A : Type) :=
| Ok (a : A)
| Thrown (msg : string)
| Crashed.
Arguments Ok {A} a.
Arguments Thrown {A} msg.
Arguments Crashed {A}.

Record st := mkSt { st_db : db; st_budget : nat }.

Definition M (A : Type) := st -> res A * st.

Definition ret {A} (a : A) : M A := fun s => (Ok a, s).

Definition bind {A B} (m : M A) (k : A -> M B) : M B :=
  fun s => match m s with
           | (Ok a, s') => k a s'
           | (Thrown e, s') => (Thrown e, s')
           | (Crashed, s') => (Crashed, s')
           end.

Notation "x <- m ;; k" := (bind m (fun x => k))
  (at level 61, m at next level, right associativity).

(** One SQL statement: it runs and commits only if the process is still
    alive. *)
Definition query {A} (f : db -> qres (A * db)) : M A :=
  fun s => match st_budget s with
           | O => (Crashed, s)
           | S n => match f (st_db s) with
                    | QOk (a, d') => (Ok a, mkSt d' n)
                    | QErr e => (Thrown e, mkSt (st_db s) n)
                    end
           end.

(** An awaited call outside the database that may reject. *)
Definition lift {A} (r : qres A) : M A :=
  fun s => match r with QOk a => (Ok a, s) | QErr e => (Thrown e, s) end.

End Handler.
Import Handler.

(** HTTP responses: [res.json(...)] with a status. *)
Inductive body := BMessage (m : string) | BError (e : string).
Record response := mkResp { status : Z; resp_body : body }.

(* ------------------------------------------------------------------ *)
(** * POST /api/forgot-password *)

(** The environment of one call: the token [crypto.randomBytes(32)] returns,
    the application clock [Date.now()], the database clock, and whether
    [sendResetEmail] resolves. *)
Record forgot_env := mkFEnv {
  fe_token : string;
  fe_app_now : Z;
  fe_db_now : Z;
  fe_mail_ok : bool
}.

Definition sendResetEmail (ok : bool) (email token : string) : qres unit :=
  if ok then QOk tt else QErr "mail transport error".

Definition forgot_password (email : string) (env : forgot_env) : M response :=
  rows <- query (fun d => QOk (select_users_by_email d email, d)) ;;
  match rows with
  | [] => ret (mkResp 200 (BMessage
             "If this email is registered, a reset link will be sent."))
  | _ :: _ =>
      let token := fe_token env in
      let expiresAt := fe_app_now env + 3600000 in
      _ <- query (fun d => match insert_reset d email token expiresAt (fe_db_now env) with
                           | QOk d' => QOk (tt, d')
                           | QErr e => QErr e
                           end) ;;
      _ <- lift (sendResetEmail (fe_mail_ok env) email token) ;;
      ret (mkResp 200 (BMessage "Password reset link has been sent to your email."))
  end.

(* ------------------------------------------------------------------ *)
(** * POST /api/reset-password *)

(** [bcrypt.hash(password, 10)] is salted and randomised: the handler is
    parameterised by the hash it returns for this call. *)
Definition reset_password (token password : string) (bcrypt_hash : string -> string)
    (db_now : Z) : M response :=
  rows <- query (fun d => QOk (select_valid_resets d token db_now, d)) ;;
  match rows with
  | [] => ret (mkResp 400 (BError "Invalid or expired token"))
  | r0 :: _ =>
      let passwordHash := bcrypt_hash password in
      _ <- query (fun d => QOk (tt, update_password_hash d passwordHash (r_email r0))) ;;
      _ <- query (fun d => QOk (tt, delete_resets d token)) ;;
      ret (mkResp 200 (BMessage "Password reset successful"))
  end.

(** Running a handler without a crash: three statements at most. *)
Definition run {A} (m : M A) (d : db) : res A * db :=
  let '(r, s) := m (mkSt d 3) in (r, st_db s).

(* ------------------------------------------------------------------ *)
(** * EduDesk/api-config.js: client helpers *)

Module Client.

(** JavaScript values as [JSON.parse] and property access produce them. *)
Inductive jsval :=
| JUndef
| JNull
| JBool (b : bool)
| JNum (n : Z)
| JStr (s : string)
| JArr (xs : list jsval)
| JObj (fields : list (string * jsval)).

Fixpoint assoc (k : string) (fs : list (string * jsval)) : jsval :=
  match fs with
  | [] => JUndef
  | (k', v) :: fs' => if String.eqb k k' then v else assoc k fs'
  end.

(** Completion of an async function: its promise resolves or rejects. *)
Inductive completion (A : Type) := Normal (a : A) | Throw (e : jsval).
Arguments Normal {A} a.
Arguments Throw {A} e.

(** [localStorage] entries.  [SRaw v] is the string [String(v)] that
    [setItem(k, v)] stores; [SJson v] the string [JSON.stringify(v)]. *)
Inductive stored := SRaw (v : jsval) | SJson (v : jsval).
Definition storage := list (string * stored).

Definition Js (A : Type) := storage -> completion A * storage.

Definition jret {A} (a : A) : Js A := fun s => (Normal a, s).
Definition jthrow {A} (e : jsval) : Js A := fun s => (Throw e, s).
Definition jbind {A B} (m : Js A) (k : A -> Js B) : Js B :=
  fun s => match m s with
           | (Normal a, s') => k a s'
           | (Throw e, s') => (Throw e, s')
           end.
Notation "x <-- m ;;; k" := (jbind m (fun x => k))
  (at level 61, m at next level, right associativity).

(** [try { m } catch (error) { h error }] *)
Definition try_catch {A} (m : Js A) (h : jsval -> Js A) : Js A :=
  fun s => match m s with
           | (Throw e, s') => h e s'
           | r => r
           end.

Definition TypeError : jsval := JObj [("name", JStr "TypeError")].
Definition SyntaxError : jsval := JObj [("name", JStr "SyntaxError")].
Definition QuotaExceededError : jsval := JObj [("name", JStr "QuotaExceededError")].
Definition NetworkTypeError : jsval :=
  JObj [("name", JStr "TypeError"); ("message", JStr "Failed to fetch")].
Definition new_Error (m : string) : jsval :=
  JObj [("name", JStr "Error"); ("message", JStr m)].

(** [v[k]]: a TypeError on [undefined] and [null], [undefined] for a key a
    primitive or array does not have. *)
Definition prop (v : jsval) (k : string) : Js jsval :=
  match v with
  | JUndef | JNull => jthrow TypeError
  | JObj fs => jret (assoc k fs)
  | _ => jret JUndef
  end.

(** A [fetch] request and what the network does with it: the promise
    rejects, or resolves to a response with [ok] and a body that
    [response.json()] parses ([Some v]) or rejects on ([None]). *)
Record request := mkReq { rq_url : string; rq_method : string; rq_body : jsval }.
Inductive fetch_outcome :=
| FetchRejected
| FetchResponse (ok : bool) (json_body : option jsval).

(** The browser: the network, and whether [localStorage.setItem] succeeds
    (it throws when the quota is exceeded or storage is disabled). *)
Record env := mkEnv {
  net : request -> fetch_outcome;
  storage_writable : bool
}.

Definition fetch (E : env) (rq : request) : Js (bool * option jsval) :=
  match net E rq with
  | FetchRejected => jthrow NetworkTypeError
  | FetchResponse ok b => jret (ok, b)
  end.

Definition response_json (b : option jsval) : Js jsval :=
  match b with Some v => jret v | None => jthrow SyntaxError end.

Definition setItem (E : env) (k : string) (v : stored) : Js unit :=
  fun s => if storage_writable E
           then (Normal tt, (k, v) :: filter (fun kv => negb (String.eqb (fst kv) k)) s)
           else (Throw QuotaExceededError, s).

Definition BASE_URL := "http://localhost:5001/api".
Definition getApiUrl (endpoint : string) := BASE_URL ++ endpoint.

(** [{ success: true, data }] and [{ success: false, error }]. *)
Inductive auth_result := AuthSuccess (data : jsval) | AuthFailure (error : jsval).

Definition network_error_message :=
  "Network error. Make sure the Flask backend is running on port 5001.".

(** The body shared by [AuthAPI.signup] and [AuthAPI.login]. *)
Definition auth_post (E : env) (endpoint : string) (payload : jsval) : Js auth_result :=
  try_catch
    (r <-- fetch E (mkReq (getApiUrl endpoint) "POST" payload) ;;;
     data <-- response_json (snd r) ;;;
     if fst r then
       tok <-- prop data "access_token" ;;;
       _ <-- setItem E "access_token" (SRaw tok) ;;;
       usr <-- prop data "user" ;;;
       _ <-- setItem E "user" (SJson usr) ;;;
       jret (AuthSuccess data)
     else
       err <-- prop data "error" ;;;
       jret (AuthFailure err))
    (fun _ => jret (AuthFailure (JStr network_error_message))).

Definition AuthAPI_signup (E : env) (name email password : string) : Js auth_result :=
  auth_post E "/auth/signup"
    (JObj [("name", JStr name); ("email", JStr email); ("password", JStr password)]).

Definition AuthAPI_login (E : env) (email password : string) : Js auth_result :=
  auth_post E "/auth/login"
    (JObj [("email", JStr email); ("password", JStr password)]).

(** The shape of every list fetch of the file: on a non-OK response it
    throws [new Error(msg)], the catch logs and returns [[]]. *)
Definition api_get (E : env) (endpoint msg : string) : Js jsval :=
  try_catch
    (r <-- fetch E (mkReq (getApiUrl endpoint) "GET" JUndef) ;;;
     if fst r then response_json (snd r) else jthrow (new_Error msg))
    (fun _ => jret (JArr [])).

(** The shape of every create of the file: the catch returns [null]. *)
Definition api_create (E : env) (endpoint msg : string) (payload : jsval) : Js jsval :=
  try_catch
    (r <-- fetch E (mkReq (getApiUrl endpoint) "POST" payload) ;;;
     if fst r then response_json (snd r) else jthrow (new_Error msg))
    (fun _ => jret JNull).

Definition CalendarAPI_getEvents (E : env) :=
  api_get E "/calendar/events" "Failed to fetch events".
Definition CalendarAPI_createEvent (E : env) (eventData : jsval) :=
  api_create E "/calendar/events" "Failed to create event" eventData.
Definition MoodAPI_getMoodEntries (E : env) :=
  api_get E "/mood/entries" "Failed to fetch mood entries".
Definition MoodAPI_createMoodEntry (E : env) (mood : string) (moodLevel : jsval)
    (notes : string) :=
  api_create E "/mood/entries" "Failed to create mood entry"
    (JObj [("mood", JStr mood); ("mood_level", moodLevel); ("notes", JStr notes)]).
Definition GoalsAPI_getGoals (E : env) :=
  api_get E "/goals/goals" "Failed to fetch goals".
Definition GoalsAPI_createGoal (E : env) (goalData : jsval) :=
  api_create E "/goals/goals" "Failed to create goal" goalData.
Definition StudyAPI_getStudySessions (E : env) :=
  api_get E "/study/sessions" "Failed to fetch study sessions".
Definition StudyAPI_createStudySession (E : env) (duration : jsval)
    (subject notes sessionType : string) :=
  api_create E "/study/sessions" "Failed to create study session"
    (JObj [("duration", duration); ("subject", JStr subject); ("notes", JStr notes);
           ("session_type", JStr sessionType)]).

End Client.

(* ------------------------------------------------------------------ *)
(** * Sequences of requests *)

(** A request to one of the two endpoints, with the crash budget of its run
    (a budget of three or more is a run that completes). *)
Inductive op :=
| OpForgot (email : string) (env : forgot_env) (budget : nat)
| OpReset (token password : string) (bcrypt_hash : string -> string) (db_now : Z)
          (budget : nat).

Definition step (d : db) (o : op) : db :=
  match o with
  | OpForgot e env b => st_db (snd (forgot_password e env (mkSt d b)))
  | OpReset t p h now b => st_db (snd (reset_password t p h now (mkSt d b)))
  end.

Definition run_ops (d : db) (ops : list op) : db := fold_left step ops d.

(** The token a forgot-password request mints, if any. *)
Definition op_token (o : op) : option string :=
  match o with OpForgot _ env _ => Some (fe_token env) | OpReset _ _ _ _ _ => None end.

Definition invalid_token_resp := mkResp 400 (BError "Invalid or expired token").
Definition reset_ok_resp := mkResp 200 (BMessage "Password reset successful").

(** No stored row carries the token [t]. *)
Definition token_absent (t : string) (d : db) : Prop :=
  Forall (fun r => r_token r <> t) (password_resets d).

(* ------------------------------------------------------------------ *)
(** * Sample stores *)

Definition db_empty := mkDB [] [].
Definition db_registered := mkDB [mkUser "user@example.com" "oldhash"] [].
Definition db_with_token :=
  mkDB [mkUser "user@example.com" "oldhash"]
       [mkReset "user@example.com" "T" 5000 1400].
Definition db_orphan_token :=
  mkDB [] [mkReset "gone@example.com" "T" 5000 1400].
Definition fenv (tok : string) (app_now db_now : Z) := mkFEnv tok app_now db_now true.
Definition const_hash (_ : string) := "H".

Example forgot_unregistered_ex :
  run (forgot_password "user@example.com" (fenv "T" 1000 1000)) db_empty
  = (Ok (mkResp 200 (BMessage "If this email is registered, a reset link will be sent.")),
     db_empty).
Proof. reflexivity. Qed.

Example reset_ok_ex :
  run (reset_password "T" "NewPass1" const_hash 1000) db_with_token
  = (Ok reset_ok_resp, mkDB [mkUser "user@example.com" "H"] []).
Proof. reflexivity. Qed.

(* ------------------------------------------------------------------ *)
(** * Generic facts about the store operations *)

Lemma eqb_refl_string (s : string) : String.eqb s s = true.
Proof. apply String.eqb_refl. Qed.

Lemma update_password_hash_resets d h e :
  password_resets (update_password_hash d h e) = password_resets d.
Proof. reflexivity. Qed.

Lemma update_password_hash_no_match d h e :
  select_users_by_email d e = [] -> update_password_hash d h e = d.
Proof.
  destruct d as [us rs]; unfold select_users_by_email, update_password_hash; simpl.
  intros Hf. f_equal. induction us as [|u us IH]; simpl in *; [reflexivity|].
  destruct (String.eqb (u_email u) e); [discriminate|]. f_equal. auto.
Qed.

(** The reset handler, statement by statement, for every crash budget. *)
Lemma reset_password_trace t p h now d b :
  reset_password t p h now (mkSt d b) =
  match b with
  | O => (Crashed, mkSt d O)
  | S b1 =>
    match select_valid_resets d t now with
    | [] => (Ok invalid_token_resp, mkSt d b1)
    | r0 :: _ =>
      let d1 := update_password_hash d (h p) (r_email r0) in
      match b1 with
      | O => (Crashed, mkSt d O)
      | S b2 =>
        match b2 with
        | O => (Crashed, mkSt d1 O)
        | S b3 => (Ok reset_ok_resp, mkSt (delete_resets d1 t) b3)
        end
      end
    end
  end.
Proof.
  destruct b as [|b1]; [reflexivity|].
  unfold reset_password, bind, query, ret; simpl.
  destruct (select_valid_resets d t now) as [|r0 rs]; [reflexivity|].
  destruct b1 as [|[|b3]]; reflexivity.
Qed.

Lemma run_reset_password t p h now d :
  run (reset_password t p h now) d =
  match select_valid_resets d t now with
  | [] => (Ok invalid_token_resp, d)
  | r0 :: _ =>
      (Ok reset_ok_resp, delete_resets (update_password_hash d (h p) (r_email r0)) t)
  end.
Proof.
  unfold run. rewrite reset_password_trace.
  destruct (select_valid_resets d t now); reflexivity.
Qed.

Lemma select_valid_resets_nil d t now :
  select_valid_resets d t now = [] <->
  Forall (fun r => r_token r <> t \/ r_expires_at r <= now) (password_resets d).
Proof.
  unfold select_valid_resets. induction (password_resets d) as [|r rs IH]; simpl.
  - split; auto.
  - destruct (String.eqb (r_token r) t) eqn:Et; destruct (now <? r_expires_at r) eqn:En;
      simpl.
    + split; [discriminate|]. intros Hf. inversion Hf as [|? ? Hr _]; subst.
      apply String.eqb_eq in Et. apply Z.ltb_lt in En.
      destruct Hr as [Hr|Hr]; [contradiction|lia].
    + rewrite IH. split; intros H; [constructor; auto; right; apply Z.ltb_ge; auto|].
      inversion H; auto.
    + rewrite IH. split; intros H; [constructor; auto; left; apply String.eqb_neq; auto|].
      inversion H; auto.
    + rewrite IH. split; intros H; [constructor; auto; left; apply String.eqb_neq; auto|].
      inversion H; auto.
Qed.

(* ------------------------------------------------------------------ *)
(** * Claims about POST /api/forgot-password and POST /api/reset-password *)

(** C1 (code defect): the same request for ["user@example.com"], once
    against a store without that account and once against a store with it,
    gets two different responses: the generic message without the account,
    "Password reset link has been sent to your email." with it, so the
    response discloses whether the account exists. *)
Theorem C1_forgot_password_discloses_account :
  let env := fenv "T" 1000 1000 in
  fst (run (forgot_password "user@example.com" env) db_empty)
    = Ok (mkResp 200 (BMessage "If this email is registered, a reset link will be sent."))
  /\ fst (run (forgot_password "user@example.com" env) db_registered)
    = Ok (mkResp 200 (BMessage "Password reset link has been sent to your email."))
  /\ fst (run (forgot_password "user@example.com" env) db_empty)
     <> fst (run (forgot_password "user@example.com" env) db_registered).
Proof.
  simpl. split; [reflexivity|]. split; [reflexivity|].
  intros H. inversion H.
Qed.

(** C2 (counterexample): a run of reset-password that dies after the UPDATE
    and before the DELETE leaves the new password hash stored and the token
    row in place, still accepted by the validity query. *)
Lemma C2_crash_between_update_and_delete :
  let '(r, s) := reset_password "T" "NewPass1" const_hash 1000 (mkSt db_with_token 2) in
  r = Crashed
  /\ users (st_db s) = [mkUser "user@example.com" "H"]
  /\ select_valid_resets (st_db s) "T" 1000 <> [].
Proof.
  simpl. split; [reflexivity|]. split; [reflexivity|]. discriminate.
Qed.

(** C2 (as amended): the credential UPDATE and the token DELETE are two
    separately committed statements.  For every crash point, the store after
    the run is: unchanged when the process dies before the UPDATE; the new
    hash with the token still stored when it dies between the UPDATE and
    the DELETE (budget 2); both changes when the run completes. *)
Theorem C2_reset_password_crash_states t p h now d b :
  st_db (snd (reset_password t p h now (mkSt d b))) =
  match select_valid_resets d t now with
  | [] => d
  | r0 :: _ =>
      let d1 := update_password_hash d (h p) (r_email r0) in
      match b with
      | O | S O => d
      | S (S O) => d1
      | _ => delete_resets d1 t
      end
  end.
Proof.
  rewrite reset_password_trace.
  destruct b as [|b1]; simpl.
  - destruct (select_valid_resets d t now); reflexivity.
  - destruct (select_valid_resets d t now); [reflexivity|].
    destruct b1 as [|[|b3]]; reflexivity.
Qed.

(** C3 (code defect): reset-password checks no password policy, although
    the deployment guide lists "Minimum 8 characters with uppercase,
    lowercase, and number requirements" and "Validate all user inputs
    server-side".  With a valid token the password "abc12345" (no uppercase
    letter) is accepted: the handler answers 200 "Password reset successful"
    and stores its hash.  For every password the token lookup runs first,
    and a completed call only ever answers the token error or success, never
    a policy error. *)
Theorem C3_weak_password_accepted :
  run (reset_password "T" "abc12345" const_hash 1000) db_with_token
  = (Ok reset_ok_resp, mkDB [mkUser "user@example.com" "H"] []) /\
  (forall t p h now d,
     fst (run (reset_password t p h now) d) =
     Ok (match select_valid_resets d t now with
         | [] => invalid_token_resp
         | _ :: _ => reset_ok_resp
         end)).
Proof.
  split; [reflexivity|].
  intros t p h now d.
  rewrite run_reset_password. destruct (select_valid_resets d t now); reflexivity.
Qed.

(** C4 (counterexample): a valid token whose email has no account left is
    answered 200 "Password reset successful", and the token is deleted. *)
Lemma C4_orphan_token_succeeds :
  run (reset_password "T" "NewPass1" const_hash 1000) db_orphan_token
  = (Ok reset_ok_resp, mkDB [] []).
Proof. reflexivity. Qed.

(** C4 (as amended): when the valid row's email matches no account, the
    call answers 200 "Password reset successful", the users table is left
    unchanged, and every row of the token is deleted. *)
Theorem C4_orphan_token_outcome t p h now d r0 rest
    (Hvalid : select_valid_resets d t now = r0 :: rest)
    (Hgone : select_users_by_email d (r_email r0) = []) :
  run (reset_password t p h now) d = (Ok reset_ok_resp, delete_resets d t).
Proof.
  rewrite run_reset_password, Hvalid.
  rewrite (update_password_hash_no_match d (h p) (r_email r0) Hgone). reflexivity.
Qed.

(** C5 (counterexample): at [now = expires_at] the row of "T" is stored
    (a consumed token has no row left, so this one is unconsumed) and
    [now > expires_at] is false, yet the call fails with the token error:
    the query keeps only rows with [expires_at > NOW()]. *)
Lemma C5_fails_at_expiry_instant :
  fst (run (reset_password "T" "NewPass1" const_hash 5000) db_with_token)
    = Ok invalid_token_resp
  /\ In (mkReset "user@example.com" "T" 5000 1400) (password_resets db_with_token)
  /\ ~ (5000 > 5000).
Proof.
  split; [reflexivity|]. split; [left; reflexivity|]. lia.
Qed.

(** C5 (as amended): a completed reset-password call fails, always with the
    one response 400 "Invalid or expired token", exactly when no stored row
    of the token has [now < expires_at] (no row, the row deleted by an
    earlier success, or [now >= expires_at]); otherwise it answers 200. *)
Theorem C5_invalid_token_exactly t p h now d :
  (fst (run (reset_password t p h now) d) = Ok invalid_token_resp <->
   Forall (fun r => r_token r <> t \/ r_expires_at r <= now) (password_resets d))
  /\ (fst (run (reset_password t p h now) d) = Ok invalid_token_resp \/
      fst (run (reset_password t p h now) d) = Ok reset_ok_resp).
Proof.
  rewrite <- select_valid_resets_nil, run_reset_password.
  destruct (select_valid_resets d t now); simpl.
  - split; [tauto|]. left; reflexivity.
  - split; [split; [intros H; inversion H|discriminate]|]. right; reflexivity.
Qed.

(* ------------------------------------------------------------------ *)
(** * Token lifetime across sequences of requests *)

Definition generic_forgot_resp :=
  mkResp 200 (BMessage "If this email is registered, a reset link will be sent.").
Definition sent_forgot_resp :=
  mkResp 200 (BMessage "Password reset link has been sent to your email.").

(** The forgot-password handler, statement by statement. *)
Lemma forgot_password_trace e env d b :
  forgot_password e env (mkSt d b) =
  match b with
  | O => (Crashed, mkSt d O)
  | S b1 =>
    match select_users_by_email d e with
    | [] => (Ok generic_forgot_resp, mkSt d b1)
    | _ :: _ =>
      match b1 with
      | O => (Crashed, mkSt d O)
      | S b2 =>
        match insert_reset d e (fe_token env) (fe_app_now env + 3600000) (fe_db_now env) with
        | QErr m => (Thrown m, mkSt d b2)
        | QOk d' =>
            if fe_mail_ok env then (Ok sent_forgot_resp, mkSt d' b2)
            else (Thrown "mail transport error", mkSt d' b2)
        end
      end
    end
  end.
Proof.
  destruct b as [|b1]; [reflexivity|].
  unfold forgot_password, bind, query, ret, lift; simpl.
  destruct (select_users_by_email d e) as [|u us]; [reflexivity|].
  destruct b1 as [|b2]; [reflexivity|].
  simpl.
  destruct (insert_reset d e (fe_token env) (fe_app_now env + 3600000) (fe_db_now env));
    simpl; [|reflexivity].
  unfold sendResetEmail; destruct (fe_mail_ok env); reflexivity.
Qed.

Lemma insert_reset_ok d e tok exp now d' :
  insert_reset d e tok exp now = QOk d' ->
  d' = mkDB (users d) (password_resets d ++ [mkReset e tok exp now]) /\
  existsb (fun r => String.eqb (r_token r) tok) (password_resets d) = false.
Proof.
  unfold insert_reset.
  destruct (existsb (fun r => String.eqb (r_token r) tok) (password_resets d));
    intros H; inversion H; auto.
Qed.

Lemma token_absent_delete t t' d : token_absent t d -> token_absent t (delete_resets d t').
Proof.
  unfold token_absent, delete_resets; simpl. intros H.
  apply Forall_forall. intros r Hr. apply filter_In in Hr as [Hr _].
  rewrite Forall_forall in H. auto.
Qed.

Lemma token_absent_deleted t d : token_absent t (delete_resets d t).
Proof.
  unfold token_absent, delete_resets; simpl.
  apply Forall_forall. intros r Hr. apply filter_In in Hr as [_ Hr].
  apply negb_true_iff, String.eqb_neq in Hr. exact Hr.
Qed.

Lemma token_absent_step t d o :
  token_absent t d -> op_token o <> Some t -> token_absent t (step d o).
Proof.
  intros Ha Ho. destruct o as [e env b | t' p h now b]; simpl.
  - rewrite forgot_password_trace.
    destruct b as [|b1]; [exact Ha|].
    destruct (select_users_by_email d e); [exact Ha|].
    destruct b1 as [|b2]; [exact Ha|].
    destruct (insert_reset d e (fe_token env) (fe_app_now env + 3600000) (fe_db_now env))
      as [d'|m] eqn:Ei; [|exact Ha].
    apply insert_reset_ok in Ei as [-> _].
    assert (Hn : token_absent t (mkDB (users d)
       (password_resets d ++
        [mkReset e (fe_token env) (fe_app_now env + 3600000) (fe_db_now env)]))).
    { unfold token_absent; simpl. apply Forall_app. split; [exact Ha|].
      constructor; [|constructor]. simpl. intros Heq. apply Ho. simpl. congruence. }
    destruct (fe_mail_ok env); exact Hn.
  - rewrite reset_password_trace.
    destruct b as [|b1]; [exact Ha|].
    destruct (select_valid_resets d t' now); [exact Ha|].
    destruct b1 as [|[|b3]]; [exact Ha|exact Ha|].
    apply token_absent_delete. exact Ha.
Qed.

Lemma token_absent_run_ops t ops :
  Forall (fun o => op_token o <> Some t) ops ->
  forall d, token_absent t d -> token_absent t (run_ops d ops).
Proof.
  induction 1 as [|o ops Ho Hops IH]; intros d Ha; simpl; [exact Ha|].
  apply IH. apply token_absent_step; assumption.
Qed.

Lemma token_absent_rejected t p h now d :
  token_absent t d -> fst (run (reset_password t p h now) d) = Ok invalid_token_resp.
Proof.
  intros Ha. rewrite run_reset_password.
  replace (select_valid_resets d t now) with (@nil reset_row); [reflexivity|].
  symmetry. apply select_valid_resets_nil.
  eapply Forall_impl; [|exact Ha]. simpl. auto.
Qed.

(** C6: a token with a stored row and [now < expires_at] succeeds, with any
    password; afterwards every reset-password call with that token fails
    with "Invalid or expired token", after any sequence of requests (runs
    that crash included) in which forgot-password never mints that same
    token value again (the 256-bit random token of [crypto.randomBytes]). *)
Theorem C6_token_succeeds_once t p h now d r
    (Hin : In r (password_resets d)) (Htok : r_token r = t)
    (Hlive : now < r_expires_at r) :
  fst (run (reset_password t p h now) d) = Ok reset_ok_resp /\
  forall ops, Forall (fun o => op_token o <> Some t) ops ->
  forall p' h' now',
    fst (run (reset_password t p' h' now')
              (run_ops (snd (run (reset_password t p h now) d)) ops))
    = Ok invalid_token_resp.
Proof.
  rewrite run_reset_password.
  destruct (select_valid_resets d t now) as [|r0 rs] eqn:Es.
  - exfalso. apply select_valid_resets_nil in Es. rewrite Forall_forall in Es.
    destruct (Es r Hin) as [H|H]; [contradiction|lia].
  - split; [reflexivity|]. intros ops Hops p' h' now'. simpl.
    apply token_absent_rejected, token_absent_run_ops; [exact Hops|].
    apply token_absent_deleted.
Qed.

(** C7 (counterexample): [expires_at] is [Date.now() + 3600000] on the
    application clock while [created_at] is the database's
    [CURRENT_TIMESTAMP]; when the two clocks read 1000 and 1005, the stored
    row has [expires_at - created_at = 3599995], not one hour. *)
Lemma C7_expiry_not_one_hour_after_created :
  password_resets (snd (run (forgot_password "user@example.com" (fenv "T1" 1000 1005))
                           db_registered))
  = [mkReset "user@example.com" "T1" 3601000 1005]
  /\ 3601000 - 1005 <> 3600000.
Proof. split; [reflexivity|]. lia. Qed.

(** C7 (as amended): a completed forgot-password call for a registered
    email whose fresh token does not collide appends exactly one row, with
    [expires_at] = application time + 3600000 ms and [created_at] = database
    time (the row is stored even when the mail then fails). *)
Theorem C7_forgot_password_appends_one_row e env d
    (Hreg : select_users_by_email d e <> [])
    (Hfresh : existsb (fun r => String.eqb (r_token r) (fe_token env)) (password_resets d)
              = false) :
  password_resets (snd (run (forgot_password e env) d))
  = (password_resets d ++
     [mkReset e (fe_token env) (fe_app_now env + 3600000) (fe_db_now env)])%list.
Proof.
  unfold run. rewrite forgot_password_trace.
  destruct (select_users_by_email d e) as [|u us]; [contradiction|].
  unfold insert_reset. rewrite Hfresh. simpl.
  destruct (fe_mail_ok env); reflexivity.
Qed.

(* ------------------------------------------------------------------ *)
(** * Uniqueness of tokens *)

Definition tokens_unique (d : db) : Prop := NoDup (map r_token (password_resets d)).

Lemma NoDup_map_filter (f : reset_row -> string) (p : reset_row -> bool) l :
  NoDup (map f l) -> NoDup (map f (filter p l)).
Proof.
  induction l as [|x l IH]; simpl; intros H; [constructor|].
  inversion H as [|? ? Hx Hl]; subst.
  destruct (p x); simpl; [|auto].
  constructor; [|auto].
  intros Hin. apply Hx. apply in_map_iff in Hin as [y [Hy Hin]].
  apply filter_In in Hin as [Hin _]. rewrite <- Hy. apply in_map. exact Hin.
Qed.

Lemma tokens_unique_insert d e tok exp now d' :
  tokens_unique d -> insert_reset d e tok exp now = QOk d' -> tokens_unique d'.
Proof.
  intros Hu Hi. apply insert_reset_ok in Hi as [-> Hf].
  unfold tokens_unique in *; simpl. rewrite map_app. simpl.
  apply NoDup_app; [exact Hu|constructor; [simpl; tauto|constructor]|].
  intros a Ha [Heq|[]]. subst a.
  apply in_map_iff in Ha as [r [Hr Hin]].
  assert (existsb (fun r => String.eqb (r_token r) tok) (password_resets d) = true)
    by (apply existsb_exists; exists r; split; [exact Hin|apply String.eqb_eq; exact Hr]).
  congruence.
Qed.

Lemma tokens_unique_step d o : tokens_unique d -> tokens_unique (step d o).
Proof.
  intros Hu. destruct o as [e env b | t p h now b]; simpl.
  - rewrite forgot_password_trace.
    destruct b as [|b1]; [exact Hu|].
    destruct (select_users_by_email d e); [exact Hu|].
    destruct b1 as [|b2]; [exact Hu|].
    destruct (insert_reset d e (fe_token env) (fe_app_now env + 3600000) (fe_db_now env))
      as [d'|m] eqn:Ei; [|exact Hu].
    apply tokens_unique_insert in Ei; [|exact Hu].
    destruct (fe_mail_ok env); exact Ei.
  - rewrite reset_password_trace.
    destruct b as [|b1]; [exact Hu|].
    destruct (select_valid_resets d t now); [exact Hu|].
    destruct b1 as [|[|b3]]; [exact Hu|exact Hu|].
    unfold tokens_unique, delete_resets; simpl. apply NoDup_map_filter. exact Hu.
Qed.

Lemma tokens_unique_run_ops ops :
  forall d, tokens_unique d -> tokens_unique (run_ops d ops).
Proof.
  induction ops as [|o ops IH]; intros d Hu; simpl; [exact Hu|].
  apply IH, tokens_unique_step, Hu.
Qed.

(** C8 (counterexample): when the generated token "T" is already stored,
    the forgot-password handler for the registered email rejects with the
    driver's unique-violation error; no row is added and no other token is
    generated: the call ends without a response. *)
Lemma C8_collision_not_regenerated :
  run (forgot_password "user@example.com" (fenv "T" 2000 2000)) db_with_token
  = (Thrown "duplicate key value violates unique constraint", db_with_token).
Proof. reflexivity. Qed.

(** C8 (as amended): from a store whose tokens are distinct, every sequence
    of requests (crashed runs included) keeps all stored tokens distinct,
    by the UNIQUE constraint; and a forgot-password call whose generated
    token is already stored fails its INSERT and rejects, leaving the store
    unchanged, with no regeneration. *)
Theorem C8_tokens_unique_and_collision_aborts :
  (forall d ops, tokens_unique d -> tokens_unique (run_ops d ops)) /\
  (forall e env d,
     select_users_by_email d e <> [] ->
     existsb (fun r => String.eqb (r_token r) (fe_token env)) (password_resets d) = true ->
     run (forgot_password e env) d
     = (Thrown "duplicate key value violates unique constraint", d)).
Proof.
  split.
  - intros d ops. apply tokens_unique_run_ops.
  - intros e env d Hreg Hdup. unfold run. rewrite forgot_password_trace.
    destruct (select_users_by_email d e); [contradiction|].
    unfold insert_reset. rewrite Hdup. reflexivity.
Qed.

(* ------------------------------------------------------------------ *)
(** * Claims about EduDesk/api-config.js *)

Module ClientFacts.
Import Client.

Fixpoint getItem (s : storage) (k : string) : option stored :=
  match s with
  | [] => None
  | (k', v) :: s' => if String.eqb k' k then Some v else getItem s' k
  end.

(** [v[k]] on a value that is neither [undefined] nor [null]. *)
Definition field (v : jsval) (k : string) : jsval :=
  match v with JObj fs => assoc k fs | _ => JUndef end.

Definition auth_request (endpoint : string) (payload : jsval) : request :=
  mkReq (getApiUrl endpoint) "POST" payload.

Definition net_failure := AuthFailure (JStr network_error_message).

(** What [auth_post] answers, case by case. *)
Definition auth_expected (E : env) (rq : request) : auth_result :=
  match net E rq with
  | FetchRejected | FetchResponse _ None => net_failure
  | FetchResponse ok (Some data) =>
      match data with
      | JUndef | JNull => net_failure
      | _ => if ok then (if storage_writable E then AuthSuccess data else net_failure)
             else AuthFailure (field data "error")
      end
  end.

Lemma auth_post_spec E endpoint payload s :
  let rq := auth_request endpoint payload in
  exists s', auth_post E endpoint payload s = (Normal (auth_expected E rq), s') /\
  (forall data, auth_expected E rq = AuthSuccess data ->
     getItem s' "access_token" = Some (SRaw (field data "access_token")) /\
     getItem s' "user" = Some (SJson (field data "user"))).
Proof.
  unfold auth_expected, auth_post, auth_request, try_catch, jbind, fetch.
  destruct (net E (mkReq (getApiUrl endpoint) "POST" payload)) as [|ok [data|]].
  - eexists; split; [reflexivity|]. discriminate.
  - destruct data as [| | b | n | str | xs | fs]; destruct ok; simpl;
      try (eexists; split; [reflexivity|]; discriminate);
      unfold setItem; destruct (storage_writable E); simpl;
      (eexists; split; [reflexivity|]);
      try discriminate;
      intros d Hd; inversion Hd; subst; simpl; rewrite ?eqb_refl_string; simpl; auto.
  - eexists; split; [reflexivity|]. discriminate.
Qed.

(** C9 (counterexample): [AuthAPI.login] reports the network-error message
    although the server answered: for an OK response with a token when
    [localStorage.setItem] throws (nothing is stored), and for a non-OK
    response whose body is not JSON (an HTML error page). *)
Lemma C9_network_message_on_server_answers :
  let ok_body := JObj [("access_token", JStr "jwt"); ("user", JObj [])] in
  AuthAPI_login (mkEnv (fun _ => FetchResponse true (Some ok_body)) false)
    "user@example.com" "Abcdefg1" []
  = (Normal (AuthFailure (JStr network_error_message)), [])
  /\ AuthAPI_login (mkEnv (fun _ => FetchResponse false None) true)
       "user@example.com" "Abcdefg1" []
  = (Normal (AuthFailure (JStr network_error_message)), []).
Proof. split; reflexivity. Qed.

(** C9 (as amended): [AuthAPI.signup] and [AuthAPI.login] never reject.
    They return [{success: false, error: <network-error message>}] when
    [fetch] rejects, when the body is not JSON, when the parsed body is
    [null], or when an OK response cannot be stored because [setItem]
    throws; otherwise a non-OK response gives [{success: false, error:
    data.error}] and an OK response stores [access_token] and
    [JSON.stringify(data.user)] and returns [{success: true, data}]. *)
Theorem C9_auth_never_throws E name email password s :
  (exists s',
     AuthAPI_signup E name email password s
     = (Normal (auth_expected E (auth_request "/auth/signup"
          (JObj [("name", JStr name); ("email", JStr email);
                 ("password", JStr password)]))), s') /\
     (forall data,
        auth_expected E (auth_request "/auth/signup"
          (JObj [("name", JStr name); ("email", JStr email);
                 ("password", JStr password)])) = AuthSuccess data ->
        getItem s' "access_token" = Some (SRaw (field data "access_token")) /\
        getItem s' "user" = Some (SJson (field data "user")))) /\
  (exists s',
     AuthAPI_login E email password s
     = (Normal (auth_expected E (auth_request "/auth/login"
          (JObj [("email", JStr email); ("password", JStr password)]))), s') /\
     (forall data,
        auth_expected E (auth_request "/auth/login"
          (JObj [("email", JStr email); ("password", JStr password)])) = AuthSuccess data ->
        getItem s' "access_token" = Some (SRaw (field data "access_token")) /\
        getItem s' "user" = Some (SJson (field data "user")))).
Proof.
  split; apply auth_post_spec.
Qed.

(** A failure of the transport or of the server: [fetch] rejects or the
    response is not OK. *)
Definition is_failure (o : fetch_outcome) : bool :=
  match o with
  | FetchRejected => true
  | FetchResponse ok _ => negb ok
  end.

Lemma api_get_failure E endpoint msg s :
  is_failure (net E (mkReq (getApiUrl endpoint) "GET" JUndef)) = true ->
  api_get E endpoint msg s = (Normal (JArr []), s).
Proof.
  unfold api_get, try_catch, jbind, fetch.
  destruct (net E (mkReq (getApiUrl endpoint) "GET" JUndef)) as [|[|] b]; simpl;
    [reflexivity|discriminate|reflexivity].
Qed.

Lemma api_create_failure E endpoint msg payload s :
  is_failure (net E (mkReq (getApiUrl endpoint) "POST" payload)) = true ->
  api_create E endpoint msg payload s = (Normal JNull, s).
Proof.
  unfold api_create, try_catch, jbind, fetch.
  destruct (net E (mkReq (getApiUrl endpoint) "POST" payload)) as [|[|] b]; simpl;
    [reflexivity|discriminate|reflexivity].
Qed.

(** C10: in a browser where every request fails (rejected [fetch] or
    non-OK response), the four list fetches resolve to [[]] and the four
    creates resolve to [null], for every argument; no promise rejects and
    [localStorage] is untouched. *)
Theorem C10_failures_give_defaults E s
    (Hfail : forall rq, is_failure (net E rq) = true) :
  CalendarAPI_getEvents E s = (Normal (JArr []), s) /\
  MoodAPI_getMoodEntries E s = (Normal (JArr []), s) /\
  GoalsAPI_getGoals E s = (Normal (JArr []), s) /\
  StudyAPI_getStudySessions E s = (Normal (JArr []), s) /\
  (forall eventData, CalendarAPI_createEvent E eventData s = (Normal JNull, s)) /\
  (forall mood moodLevel notes,
     MoodAPI_createMoodEntry E mood moodLevel notes s = (Normal JNull, s)) /\
  (forall goalData, GoalsAPI_createGoal E goalData s = (Normal JNull, s)) /\
  (forall duration subject notes sessionType,
     StudyAPI_createStudySession E duration subject notes sessionType s
     = (Normal JNull, s)).
Proof.
  repeat split; intros;
    first [apply api_get_failure | apply api_create_failure]; apply Hfail.
Qed.

End ClientFacts.

(* ------------------------------------------------------------------ *)
(** * Witnesses: the hypotheses of the theorems hold at concrete inputs *)

Definition orphan_row := mkReset "gone@example.com" "T" 5000 1400.
Definition live_row := mkReset "user@example.com" "T" 5000 1400.

Lemma C4_orphan_token_outcome_witness :
  select_valid_resets db_orphan_token "T" 1000 = [orphan_row] /\
  select_users_by_email db_orphan_token (r_email orphan_row) = [] /\
  run (reset_password "T" "NewPass1" const_hash 1000) db_orphan_token
  = (Ok reset_ok_resp, delete_resets db_orphan_token "T").
Proof.
  split; [reflexivity|]. split; [reflexivity|].
  apply (C4_orphan_token_outcome "T" "NewPass1" const_hash 1000 db_orphan_token
           orphan_row []); reflexivity.
Defined.

Lemma C6_token_succeeds_once_witness :
  In live_row (password_resets db_with_token) /\ r_token live_row = "T" /\ 1000 < 5000 /\
  (fst (run (reset_password "T" "NewPass1" const_hash 1000) db_with_token) = Ok reset_ok_resp /\
   forall ops, Forall (fun o => op_token o <> Some "T") ops ->
   forall p' h' now',
     fst (run (reset_password "T" p' h' now')
               (run_ops (snd (run (reset_password "T" "NewPass1" const_hash 1000)
                                  db_with_token)) ops))
     = Ok invalid_token_resp).
Proof.
  split; [left; reflexivity|]. split; [reflexivity|]. split; [lia|].
  apply (C6_token_succeeds_once "T" "NewPass1" const_hash 1000 db_with_token live_row);
    [left; reflexivity|reflexivity|simpl; lia].
Defined.

Lemma C7_forgot_password_appends_one_row_witness :
  select_users_by_email db_registered "user@example.com" <> [] /\
  existsb (fun r => String.eqb (r_token r) "T1") (password_resets db_registered) = false /\
  password_resets (snd (run (forgot_password "user@example.com" (fenv "T1" 1000 1005))
                           db_registered))
  = (password_resets db_registered ++ [mkReset "user@example.com" "T1" 3601000 1005])%list.
Proof.
  split; [discriminate|]. split; [reflexivity|].
  apply (C7_forgot_password_appends_one_row "user@example.com" (fenv "T1" 1000 1005)
           db_registered); [discriminate|reflexivity].
Defined.

Definition env_offline : Client.env := Client.mkEnv (fun _ => Client.FetchRejected) true.

Lemma C10_failures_give_defaults_witness :
  (forall rq, ClientFacts.is_failure (Client.net env_offline rq) = true) /\
  Client.CalendarAPI_getEvents env_offline [] = (Client.Normal (Client.JArr []), []).
Proof.
  split; [intros rq; reflexivity|].
  apply (ClientFacts.C10_failures_give_defaults env_offline []).
  intros rq; reflexivity.
Defined.

(* ------------------------------------------------------------------ *)
(** * Further properties of the two endpoints *)

(** X1: for every crash point, forgot-password leaves the users table as
    it is and either leaves the reset rows as they are or appends exactly
    the one row it minted. *)
Theorem X1_forgot_password_frame e env d b :
  let d' := st_db (snd (forgot_password e env (mkSt d b))) in
  users d' = users d /\
  (password_resets d' = password_resets d \/
   password_resets d' = (password_resets d ++
     [mkReset e (fe_token env) (fe_app_now env + 3600000) (fe_db_now env)])%list).
Proof.
  simpl. rewrite forgot_password_trace.
  destruct b as [|b1]; [simpl; auto|].
  destruct (select_users_by_email d e); [simpl; auto|].
  destruct b1 as [|b2]; [simpl; auto|].
  destruct (insert_reset d e (fe_token env) (fe_app_now env + 3600000) (fe_db_now env))
    as [d'|m] eqn:Ei; [|simpl; auto].
  apply insert_reset_ok in Ei as [-> _].
  destruct (fe_mail_ok env); simpl; auto.
Qed.

(** X2: for an email with no account, forgot-password changes nothing in
    the store, whatever the crash point, and a completed call answers the
    generic 200 message. *)
Theorem X2_forgot_password_unregistered e env d b
    (Hnone : select_users_by_email d e = []) :
  st_db (snd (forgot_password e env (mkSt d b))) = d /\
  (b <> O -> fst (forgot_password e env (mkSt d b)) = Ok generic_forgot_resp).
Proof.
  rewrite forgot_password_trace, Hnone.
  destruct b; simpl; split; auto. intros H; contradiction.
Qed.

(** X3: when the reset mail fails, the token row is already committed but
    the handler rejects, so the caller gets no response at all. *)
Theorem X3_forgot_password_mail_failure e env d
    (Hreg : select_users_by_email d e <> [])
    (Hfresh : existsb (fun r => String.eqb (r_token r) (fe_token env)) (password_resets d)
              = false)
    (Hmail : fe_mail_ok env = false) :
  run (forgot_password e env) d =
  (Thrown "mail transport error",
   mkDB (users d) (password_resets d ++
     [mkReset e (fe_token env) (fe_app_now env + 3600000) (fe_db_now env)])%list).
Proof.
  unfold run. rewrite forgot_password_trace.
  destruct (select_users_by_email d e); [contradiction|].
  unfold insert_reset. rewrite Hfresh, Hmail. reflexivity.
Qed.

(** X4: after a completed reset-password call on a valid token, the list of
    account emails is unchanged; every account of the token's email holds
    the new hash, and every other account is as before. *)
Theorem X4_reset_password_postcondition t p h now d r0 rest
    (Hvalid : select_valid_resets d t now = r0 :: rest) :
  let d' := snd (run (reset_password t p h now) d) in
  map u_email (users d') = map u_email (users d) /\
  (forall u, In u (users d') ->
     (u_email u = r_email r0 /\ u_password_hash u = h p) \/
     (In u (users d) /\ u_email u <> r_email r0)).
Proof.
  simpl. rewrite run_reset_password, Hvalid. simpl.
  split.
  - rewrite map_map. apply map_ext. intros u.
    destruct (String.eqb (u_email u) (r_email r0)); reflexivity.
  - intros u Hu. apply in_map_iff in Hu as [u0 [Hu0 Hin]].
    destruct (String.eqb (u_email u0) (r_email r0)) eqn:Ee; subst u.
    + left. simpl. apply String.eqb_eq in Ee. auto.
    + right. apply String.eqb_neq in Ee. auto.
Qed.

Lemma filter_twice {A} (f g : A -> bool) l :
  filter f (filter g l) = filter (fun x => g x && f x) l.
Proof.
  induction l as [|x l IH]; simpl; [reflexivity|].
  destruct (g x); simpl; [destruct (f x); simpl|]; rewrite IH; reflexivity.
Qed.

(** X5: whatever the crash point, a reset-password call with token [t]
    neither adds reset rows nor changes the validity of any other token:
    other outstanding tokens of the same account stay usable. *)
Theorem X5_reset_password_other_tokens t p h now d b t' now'
    (Hne : t' <> t) :
  let d' := st_db (snd (reset_password t p h now (mkSt d b))) in
  incl (password_resets d') (password_resets d) /\
  select_valid_resets d' t' now' = select_valid_resets d t' now'.
Proof.
  simpl. rewrite reset_password_trace.
  destruct b as [|b1]; [simpl; split; [apply incl_refl|reflexivity]|].
  destruct (select_valid_resets d t now) as [|r0 rs];
    [simpl; split; [apply incl_refl|reflexivity]|].
  destruct b1 as [|[|b3]]; simpl; try (split; [apply incl_refl|reflexivity]).
  split.
  - intros r Hr. apply filter_In in Hr as [Hr _]. exact Hr.
  - unfold select_valid_resets; simpl. rewrite filter_twice.
    apply filter_ext. intros r.
    destruct (String.eqb (r_token r) t') eqn:E1; simpl; [|apply andb_false_r].
    apply String.eqb_eq in E1; subst t'.
    destruct (String.eqb (r_token r) t) eqn:E2; [apply String.eqb_eq in E2; congruence|].
    reflexivity.
Qed.

(* ------------------------------------------------------------------ *)
(** * The reset token: [crypto.randomBytes(32).toString('hex')] *)

Module Token.

Definition hex_alphabet := "0123456789abcdef".

Definition hex_digit (n : nat) : ascii :=
  match String.get n hex_alphabet with Some c => c | None => "0"%char end.

(** [Buffer.prototype.toString('hex')]: two lowercase digits per byte,
    high nibble first. *)
Fixpoint hex_encode (bs : list Byte.byte) : string :=
  match bs with
  | [] => EmptyString
  | b :: bs' =>
      String (hex_digit (Nat.div (Byte.to_nat b) 16))
        (String (hex_digit (Nat.modulo (Byte.to_nat b) 16)) (hex_encode bs'))
  end.

(** [const token = crypto.randomBytes(32).toString('hex')], given the bytes
    the random source returned. *)
Definition generate_token (random_bytes : list Byte.byte) : string :=
  hex_encode random_bytes.

(** The digit value of a character of [hex_alphabet]. *)
Fixpoint index_of (c : ascii) (s : string) (i : nat) : option nat :=
  match s with
  | EmptyString => None
  | String c' s' => if Ascii.eqb c c' then Some i else index_of c s' (S i)
  end.
Definition hex_value (c : ascii) : option nat := index_of c hex_alphabet O.

Lemma hex_value_digit n : (n < 16)%nat -> hex_value (hex_digit n) = Some n.
Proof.
  intros H.
  do 16 (destruct n as [|n]; [reflexivity|]). exfalso. apply Nat.ltb_lt in H.
  discriminate.
Qed.

Lemma hex_digit_inj n m : (n < 16)%nat -> (m < 16)%nat -> hex_digit n = hex_digit m -> n = m.
Proof.
  intros Hn Hm Heq. apply (f_equal hex_value) in Heq.
  rewrite !hex_value_digit in Heq by assumption. congruence.
Qed.

Lemma byte_nibbles b :
  Byte.to_nat b = (16 * Nat.div (Byte.to_nat b) 16 + Nat.modulo (Byte.to_nat b) 16)%nat.
Proof. apply Nat.div_mod. discriminate. Qed.

Lemma byte_hi_lt b : (Nat.div (Byte.to_nat b) 16 < 16)%nat.
Proof.
  apply Nat.Div0.div_lt_upper_bound. pose proof (Byte.to_nat_bounded b). lia.
Qed.

Lemma byte_lo_lt b : (Nat.modulo (Byte.to_nat b) 16 < 16)%nat.
Proof. apply Nat.mod_upper_bound. discriminate. Qed.

Lemma hex_encode_length bs : String.length (hex_encode bs) = (2 * length bs)%nat.
Proof. induction bs as [|b bs IH]; simpl; [reflexivity|]. rewrite IH. lia. Qed.

(** X6: the token of [n] random bytes is [2 n] characters long and every
    character is a lowercase hex digit, so 32 bytes give a 64-character
    token that needs no escaping in the reset link's query string. *)
Theorem X6_token_shape random_bytes (H32 : length random_bytes = 32%nat) :
  String.length (generate_token random_bytes) = 64%nat /\
  forall i c, String.get i (generate_token random_bytes) = Some c ->
              exists k, (k < 16)%nat /\ c = hex_digit k.
Proof.
  unfold generate_token. split.
  - rewrite hex_encode_length, H32. reflexivity.
  - clear H32. induction random_bytes as [|b bs IH]; intros i c Hc; simpl in Hc;
      [discriminate|].
    destruct i as [|[|i]]; simpl in Hc.
    + inversion Hc. exists (Nat.div (Byte.to_nat b) 16). split; [apply byte_hi_lt|reflexivity].
    + inversion Hc. exists (Nat.modulo (Byte.to_nat b) 16). split; [apply byte_lo_lt|reflexivity].
    + eapply IH. exact Hc.
Qed.

(** X7: hex encoding is injective: distinct random byte strings always give
    distinct tokens. *)
Theorem X7_hex_encode_injective bs1 bs2 :
  hex_encode bs1 = hex_encode bs2 -> bs1 = bs2.
Proof.
  revert bs2. induction bs1 as [|b1 bs1 IH]; intros [|b2 bs2] Heq; cbn [hex_encode] in Heq;
    try discriminate; [reflexivity|].
  injection Heq as Hhi Hlo Hrest.
  apply hex_digit_inj in Hhi; [|apply byte_hi_lt|apply byte_hi_lt].
  apply hex_digit_inj in Hlo; [|apply byte_lo_lt|apply byte_lo_lt].
  assert (Hhi' : Nat.div (Byte.to_nat b1) 16 = Nat.div (Byte.to_nat b2) 16) by exact Hhi.
  assert (Hlo' : Nat.modulo (Byte.to_nat b1) 16 = Nat.modulo (Byte.to_nat b2) 16)
    by exact Hlo.
  assert (Hb : Byte.to_nat b1 = Byte.to_nat b2)
    by (rewrite (byte_nibbles b1), (byte_nibbles b2), Hhi', Hlo'; reflexivity).
  assert (Hb' : Byte.of_nat (Byte.to_nat b1) = Byte.of_nat (Byte.to_nat b2))
    by (rewrite Hb; reflexivity).
  rewrite !Byte.of_to_nat in Hb'. inversion Hb'; subst.
  f_equal. apply IH. exact Hrest.
Qed.

End Token.

(* ------------------------------------------------------------------ *)
(** * api-config.js: the session helpers of [AuthAPI] *)

Module ClientSession.
Import Client ClientFacts.

(** Decimal digits of a non-negative integer. *)
Fixpoint nat_digits (fuel : nat) (n : Z) (acc : string) : string :=
  match fuel with
  | O => acc
  | S f =>
      let acc' := String (ascii_of_nat (48 + Z.to_nat (n mod 10))) acc in
      if n <? 10 then acc' else nat_digits f (n / 10) acc'
  end.

Definition Z_to_decimal (n : Z) : string :=
  if n <? 0 then "-" ++ nat_digits (S (Z.to_nat (Z.log2 (- n)))) (- n) ""
  else nat_digits (S (Z.to_nat (Z.log2 n))) n "".

(** [String(v)], as a template literal or [setItem] converts a value. *)
Fixpoint js_String (v : jsval) : string :=
  match v with
  | JUndef => "undefined"
  | JNull => "null"
  | JBool true => "true"
  | JBool false => "false"
  | JNum n => Z_to_decimal n
  | JStr s => s
  | JArr xs =>
      (fix join (xs : list jsval) : string :=
         match xs with
         | [] => ""
         | x :: xs' =>
             let sx := match x with JUndef | JNull => "" | _ => js_String x end in
             match xs' with [] => sx | _ => sx ++ "," ++ join xs' end
         end) xs
  | JObj _ => "[object Object]"
  end.

Section Builtins.
(** The browser's [JSON.stringify] (no string for [undefined]) and
    [JSON.parse] (no value for text that is not JSON). *)
Variable JSON_stringify : jsval -> option string.
Variable JSON_parse : string -> option jsval.

(** The string [localStorage] holds for an entry. *)
Definition stored_text (x : stored) : string :=
  match x with
  | SRaw v => js_String v
  | SJson v => match JSON_stringify v with Some t => t | None => "undefined" end
  end.

(** [localStorage.getItem(k)]: [None] is [null]. *)
Definition getItem_text (s : storage) (k : string) : option string :=
  option_map stored_text (getItem s k).

Definition removeItem (s : storage) (k : string) : storage :=
  filter (fun kv => negb (String.eqb (fst kv) k)) s.

(** [AuthAPI.getAuthHeaders()] *)
Definition getAuthHeaders (s : storage) : list (string * string) :=
  [("Content-Type", "application/json");
   ("Authorization", "Bearer " ++ match getItem_text s "access_token" with
                                  | Some t => t | None => "null" end)].

(** [AuthAPI.isLoggedIn()]: [!!localStorage.getItem('access_token')]. *)
Definition isLoggedIn (s : storage) : bool :=
  match getItem_text s "access_token" with
  | Some t => negb (String.eqb t "")
  | None => false
  end.

(** [AuthAPI.logout()]: the new storage and the page [window.location.href]
    is set to. *)
Definition logout (s : storage) : storage * string :=
  (removeItem (removeItem s "access_token") "user", "login.html").

(** [AuthAPI.getCurrentUser()]: [JSON.parse] is outside any try block. *)
Definition getCurrentUser (s : storage) : completion jsval :=
  match getItem_text s "user" with
  | None => Normal JNull
  | Some t =>
      if String.eqb t "" then Normal JNull
      else match JSON_parse t with
           | Some v => Normal v
           | None => Throw SyntaxError
           end
  end.

End Builtins.

Lemma getItem_removeItem s k k' :
  getItem (removeItem s k) k' = if String.eqb k k' then None else getItem s k'.
Proof.
  induction s as [|[k0 v0] s IH]; simpl.
  - destruct (String.eqb k k'); reflexivity.
  - destruct (String.eqb k0 k) eqn:E0; simpl.
    + rewrite IH. apply String.eqb_eq in E0; subst k0.
      destruct (String.eqb k k'); reflexivity.
    + rewrite IH. destruct (String.eqb k0 k') eqn:E1; [|reflexivity].
      apply String.eqb_eq in E1; subst k0. rewrite String.eqb_sym, E0. reflexivity.
Qed.

(** X8: [CalendarAPI.getEvents], [MoodAPI.getMoodEntries],
    [GoalsAPI.getGoals] and [StudyAPI.getStudySessions] (all [api_get])
    resolve to the parsed body exactly when the response is OK and its body
    is JSON, and to [[]] in every other case (an OK response with a body
    that is not JSON included); the creates (all [api_create]) likewise
    with [null].  None of them rejects or touches [localStorage]. *)
Theorem X8_api_get_create_results E endpoint msg payload s :
  api_get E endpoint msg s =
  (Normal (match net E (mkReq (getApiUrl endpoint) "GET" JUndef) with
           | FetchResponse true (Some v) => v
           | _ => JArr []
           end), s) /\
  api_create E endpoint msg payload s =
  (Normal (match net E (mkReq (getApiUrl endpoint) "POST" payload) with
           | FetchResponse true (Some v) => v
           | _ => JNull
           end), s).
Proof.
  unfold api_get, api_create, try_catch, jbind, fetch. split.
  - destruct (net E (mkReq (getApiUrl endpoint) "GET" JUndef)) as [|[|] [v|]]; reflexivity.
  - destruct (net E (mkReq (getApiUrl endpoint) "POST" payload)) as [|[|] [v|]];
      reflexivity.
Qed.

Lemma login_success_storage E email password s data
    (Hnet : net E (auth_request "/auth/login"
                     (JObj [("email", JStr email); ("password", JStr password)]))
            = FetchResponse true (Some data))
    (Hdata : data <> JUndef /\ data <> JNull)
    (Hw : storage_writable E = true) :
  fst (AuthAPI_login E email password s) = Normal (AuthSuccess data) /\
  getItem (snd (AuthAPI_login E email password s)) "access_token"
    = Some (SRaw (field data "access_token")) /\
  getItem (snd (AuthAPI_login E email password s)) "user"
    = Some (SJson (field data "user")).
Proof.
  assert (Hexp : auth_expected E (auth_request "/auth/login"
                   (JObj [("email", JStr email); ("password", JStr password)]))
                 = AuthSuccess data).
  { unfold auth_expected. rewrite Hnet, Hw.
    destruct data; try reflexivity; destruct Hdata; congruence. }
  destruct (auth_post_spec E "/auth/login"
              (JObj [("email", JStr email); ("password", JStr password)]) s)
    as [s' [Heq Hst]].
  unfold AuthAPI_login. rewrite Heq, Hexp. simpl.
  destruct (Hst data Hexp). auto.
Qed.

(** X9: after [AuthAPI.login] succeeds (OK response with a JSON object
    body, writable storage), every later request carries
    ["Bearer " + String(data.access_token)] and [isLoggedIn()] is true
    unless that string is empty; an OK body without [access_token] thus
    leaves the browser "logged in" with ["Bearer undefined"]. *)
Theorem X9_login_session JSON_stringify E email password s data
    (Hnet : net E (auth_request "/auth/login"
                     (JObj [("email", JStr email); ("password", JStr password)]))
            = FetchResponse true (Some data))
    (Hdata : data <> JUndef /\ data <> JNull)
    (Hw : storage_writable E = true) :
  let s' := snd (AuthAPI_login E email password s) in
  getAuthHeaders JSON_stringify s' =
    [("Content-Type", "application/json");
     ("Authorization", "Bearer " ++ js_String (field data "access_token"))] /\
  isLoggedIn JSON_stringify s' = negb (String.eqb (js_String (field data "access_token")) "").
Proof.
  destruct (login_success_storage E email password s data Hnet Hdata Hw) as [_ [Ha _]].
  simpl. unfold getAuthHeaders, isLoggedIn, getItem_text. rewrite Ha. simpl.
  split; reflexivity.
Qed.

(** X10: after [AuthAPI.logout()] the browser is logged out
    ([isLoggedIn()] false), requests carry ["Bearer null"],
    [getCurrentUser()] is [null], the page goes to [login.html], and every
    other [localStorage] entry is kept. *)
Theorem X10_logout JSON_stringify JSON_parse s :
  let s' := fst (logout s) in
  isLoggedIn JSON_stringify s' = false /\
  getAuthHeaders JSON_stringify s' =
    [("Content-Type", "application/json"); ("Authorization", "Bearer null")] /\
  getCurrentUser JSON_stringify JSON_parse s' = Normal JNull /\
  snd (logout s) = "login.html" /\
  (forall k, k <> "access_token" -> k <> "user" -> getItem s' k = getItem s k).
Proof.
  simpl. unfold isLoggedIn, getAuthHeaders, getCurrentUser, getItem_text.
  rewrite !getItem_removeItem. simpl.
  split; [reflexivity|]. split; [reflexivity|]. split; [reflexivity|].
  split; [reflexivity|].
  intros k Hk1 Hk2. rewrite !getItem_removeItem.
  destruct (String.eqb "user" k) eqn:E1; [apply String.eqb_eq in E1; congruence|].
  destruct (String.eqb "access_token" k) eqn:E2; [apply String.eqb_eq in E2; congruence|].
  reflexivity.
Qed.

(** X11: when an OK login body has no [user] field, [setItem('user',
    JSON.stringify(undefined))] stores the text "undefined", and every later
    [AuthAPI.getCurrentUser()] throws a SyntaxError from [JSON.parse]. *)
Theorem X11_getCurrentUser_throws_without_user JSON_stringify JSON_parse E email password s
    data
    (Hnet : net E (auth_request "/auth/login"
                     (JObj [("email", JStr email); ("password", JStr password)]))
            = FetchResponse true (Some data))
    (Hdata : data <> JUndef /\ data <> JNull)
    (Hw : storage_writable E = true)
    (Huser : field data "user" = JUndef)
    (Hstr : JSON_stringify JUndef = None)
    (Hparse : JSON_parse "undefined" = None) :
  getCurrentUser JSON_stringify JSON_parse (snd (AuthAPI_login E email password s))
  = Throw SyntaxError.
Proof.
  destruct (login_success_storage E email password s data Hnet Hdata Hw) as [_ [_ Hu]].
  unfold getCurrentUser, getItem_text. rewrite Hu, Huser. simpl.
  rewrite Hstr. simpl. rewrite Hparse. reflexivity.
Qed.

End ClientSession.

(* ------------------------------------------------------------------ *)
(** * The frontend example (unnamed part_001): calendar delete, login form,
      protected-page check *)

Module ExampleClient.
Import Client ClientFacts ClientSession.

Definition API_BASE_URL := "http://localhost:5000/api".

(** [CalendarAPI.deleteEvent(eventId)]: the body is never read. *)
Definition CalendarAPI_deleteEvent (E : env) (eventId : string) : Js jsval :=
  try_catch
    (r <-- fetch E (mkReq (API_BASE_URL ++ "/calendar/events/" ++ eventId) "DELETE" JUndef) ;;;
     jret (JBool (fst r)))
    (fun _ => jret (JBool false)).

(** [String.prototype.trim] on Latin-1 code units: tab, LF, VT, FF, CR,
    space and no-break space are white space. *)
Definition is_js_space (c : ascii) : bool :=
  let n := nat_of_ascii c in
  ((9 <=? n) && (n <=? 13))%nat || Nat.eqb n 32 || Nat.eqb n 160.

Fixpoint drop_spaces (cs : list ascii) : list ascii :=
  match cs with
  | [] => []
  | c :: cs' => if is_js_space c then drop_spaces cs' else cs
  end.

Definition trim (s : string) : string :=
  string_of_list_ascii (rev (drop_spaces (rev (drop_spaces (list_ascii_of_string s))))).

(** JavaScript truthiness of [result.error]. *)
Definition truthy (v : jsval) : bool :=
  match v with
  | JUndef | JNull => false
  | JBool b => b
  | JNum n => negb (Z.eqb n 0)
  | JStr s => negb (String.eqb s "")
  | JArr _ | JObj _ => true
  end.

(** What the page shows or does. *)
Inductive ui := Alert (m : string) | Navigate (page : string)
              | SetButton (text : string) (disabled : bool).

(** The submit listener of [.login-form], given the login call it awaits,
    the values of the [#email] and [#password] fields and the button's
    original text. *)
Definition login_submit (login : string -> string -> Js auth_result)
    (email_value password originalText : string) : Js (list ui) :=
  let email := trim email_value in
  if String.eqb email "" || String.eqb password "" then
    jret [Alert "Please fill in all fields."]
  else
    fun s =>
      let '(c, s') := login email password s in
      let outcome :=
        match c with
        | Normal (AuthSuccess _) => [Navigate "dashboard.html"]
        | Normal (AuthFailure err) =>
            [Alert (if truthy err then js_String err
                    else "Login failed. Please check your credentials.")]
        | Throw _ => [Alert "An error occurred. Please try again."]
        end in
      (Normal ([SetButton "Signing In..." true] ++ outcome ++
               [SetButton originalText false])%list, s').

(** [pathname.split('/')] *)
Fixpoint split_slash_aux (s : string) (cur : string) : list string :=
  match s with
  | EmptyString => [cur]
  | String c s' =>
      if Ascii.eqb c "/"%char then cur :: split_slash_aux s' ""
      else split_slash_aux s' (cur ++ String c "")
  end.
Definition split_slash (s : string) : list string := split_slash_aux s "".

Definition protectedPages :=
  ["dashboard.html"; "calendar.html"; "mood-tracker.html"; "goals.html"].

(** The DOMContentLoaded check: the page to redirect to, if any. *)
Definition auth_check (pathname : string) (loggedIn : bool) : option string :=
  let currentPage := last (split_slash pathname) "" in
  if existsb (String.eqb currentPage) protectedPages && negb loggedIn
  then Some "login.html" else None.

Lemma string_app_nil_r (s : string) : (s ++ "")%string = s.
Proof. induction s as [|c s IH]; simpl; [reflexivity|]. rewrite IH. reflexivity. Qed.

Lemma string_app_assoc (a b c : string) : (a ++ (b ++ c))%string = ((a ++ b) ++ c)%string.
Proof. induction a as [|x a IH]; simpl; [reflexivity|]. rewrite IH. reflexivity. Qed.

Definition no_slash (s : string) : Prop := forall i, String.get i s <> Some "/"%char.

Lemma split_slash_aux_no_slash q cur :
  no_slash q -> split_slash_aux q cur = [cur ++ q].
Proof.
  revert cur. induction q as [|c q IH]; intros cur Hq; simpl.
  - rewrite string_app_nil_r. reflexivity.
  - destruct (Ascii.eqb c "/"%char) eqn:Ec.
    + exfalso. apply (Hq 0%nat). simpl. apply Ascii.eqb_eq in Ec. rewrite Ec. reflexivity.
    + rewrite IH; [|intros i; apply (Hq (S i))].
      rewrite <- string_app_assoc. reflexivity.
Qed.

Lemma split_slash_aux_nonempty s cur : split_slash_aux s cur <> [].
Proof.
  revert cur. induction s as [|c s IH]; intros cur; simpl; [discriminate|].
  destruct (Ascii.eqb c "/"%char); [discriminate|apply IH].
Qed.

Lemma last_cons_nonempty {A} (x : A) l d : l <> [] -> last (x :: l) d = last l d.
Proof. destruct l; [contradiction|reflexivity]. Qed.

Lemma last_segment p q cur :
  no_slash q -> last (split_slash_aux (p ++ "/" ++ q) cur) "" = q.
Proof.
  revert cur. induction p as [|c p IH]; intros cur Hq; simpl.
  - rewrite split_slash_aux_no_slash by exact Hq. reflexivity.
  - destruct (Ascii.eqb c "/"%char).
    + rewrite last_cons_nonempty by apply split_slash_aux_nonempty. apply IH, Hq.
    + apply IH, Hq.
Qed.

(** X12: [CalendarAPI.deleteEvent] never rejects: it resolves to [true]
    exactly when the server answers OK (whatever the body) and to [false]
    on a non-OK answer or a network failure. *)
Theorem X12_deleteEvent_result E eventId s :
  CalendarAPI_deleteEvent E eventId s =
  (Normal (JBool (match net E (mkReq (API_BASE_URL ++ "/calendar/events/" ++ eventId)
                                     "DELETE" JUndef) with
                  | FetchResponse ok _ => ok
                  | FetchRejected => false
                  end)), s).
Proof.
  unfold CalendarAPI_deleteEvent, try_catch, jbind, fetch.
  destruct (net E _); reflexivity.
Qed.

(** X13: the login form calls [AuthAPI.login] only when the trimmed email
    and the untrimmed password are both non-empty (a password of spaces
    goes through); otherwise it only alerts "Please fill in all fields."
    and leaves storage alone.  When it calls it, it passes the trimmed
    email, disables the button first and always restores the button's
    original text last. *)
Theorem X13_login_submit login email_value password originalText s :
  (trim email_value = "" \/ password = "" ->
   login_submit login email_value password originalText s
   = (Normal [Alert "Please fill in all fields."], s)) /\
  (trim email_value <> "" -> password <> "" ->
   exists outcome,
     login_submit login email_value password originalText s
     = (Normal ([SetButton "Signing In..." true] ++ outcome ++
                [SetButton originalText false])%list,
        snd (login (trim email_value) password s)) /\
     (forall data, fst (login (trim email_value) password s) = Normal (AuthSuccess data) ->
        outcome = [Navigate "dashboard.html"])).
Proof.
  unfold login_submit. split.
  - intros [H|H]; rewrite H; [reflexivity|].
    rewrite orb_true_r. reflexivity.
  - intros He Hp.
    apply String.eqb_neq in He, Hp. rewrite He, Hp. simpl.
    destruct (login (trim email_value) password s) as [c s'] eqn:El.
    eexists; split; [reflexivity|].
    intros data Hc. simpl in Hc. subst c. reflexivity.
Qed.

(** X14: on a path ending in [/page] ([page] without a slash) the check
    redirects to [login.html] exactly when [page] is one of the four listed
    pages and the visitor is not logged in; a path ending in [/] never
    redirects, even under a protected page. *)
Theorem X14_auth_check p page loggedIn (Hpage : no_slash page) :
  auth_check (p ++ "/" ++ page) loggedIn =
    (if existsb (String.eqb page) protectedPages && negb loggedIn
     then Some "login.html" else None) /\
  auth_check (p ++ "/") loggedIn = None.
Proof.
  unfold auth_check, split_slash. split.
  - rewrite last_segment by exact Hpage. reflexivity.
  - assert (H : no_slash "") by (intros i; destruct i; discriminate).
    pose proof (last_segment p "" "" H) as Hl. rewrite string_app_nil_r in Hl.
    rewrite Hl. reflexivity.
Qed.

End ExampleClient.

(* ------------------------------------------------------------------ *)
(** * Examples and witnesses for the further properties *)

Example trim_ex : ExampleClient.trim "  a b	" = "a b".
Proof. reflexivity. Qed.

Example auth_check_ex :
  ExampleClient.auth_check "/dashboard.html" false = Some "login.html" /\
  ExampleClient.auth_check "/app/dashboard.html/" false = None /\
  ExampleClient.auth_check "/goal-setting.html" false = None.
Proof. repeat split; reflexivity. Qed.

Example js_String_ex :
  ClientSession.js_String (Client.JNum (-120)) = "-120" /\
  ClientSession.js_String (Client.JArr [Client.JNull; Client.JNum 7]) = ",7".
Proof. split; reflexivity. Qed.

Definition db_two_tokens :=
  mkDB [mkUser "user@example.com" "oldhash"]
       [mkReset "user@example.com" "T" 5000 1400;
        mkReset "user@example.com" "U" 6000 1500].

Lemma X2_forgot_password_unregistered_witness :
  select_users_by_email db_empty "user@example.com" = [] /\
  st_db (snd (forgot_password "user@example.com" (fenv "T" 1000 1000) (mkSt db_empty 3)))
    = db_empty /\
  ((3%nat <> O) -> fst (forgot_password "user@example.com" (fenv "T" 1000 1000)
                         (mkSt db_empty 3)) = Ok generic_forgot_resp).
Proof.
  split; [reflexivity|].
  apply (X2_forgot_password_unregistered "user@example.com" (fenv "T" 1000 1000) db_empty 3).
  reflexivity.
Defined.

Lemma X3_forgot_password_mail_failure_witness :
  fe_mail_ok (mkFEnv "T1" 1000 1000 false) = false /\
  run (forgot_password "user@example.com" (mkFEnv "T1" 1000 1000 false)) db_registered
  = (Thrown "mail transport error",
     mkDB (users db_registered)
       (password_resets db_registered ++ [mkReset "user@example.com" "T1" 3601000 1000])%list).
Proof.
  split; [reflexivity|].
  apply (X3_forgot_password_mail_failure "user@example.com" (mkFEnv "T1" 1000 1000 false)
           db_registered); [discriminate|reflexivity|reflexivity].
Defined.

Lemma X4_reset_password_postcondition_witness :
  select_valid_resets db_with_token "T" 1000 = [live_row] /\
  (let d' := snd (run (reset_password "T" "NewPass1" const_hash 1000) db_with_token) in
   map u_email (users d') = map u_email (users db_with_token) /\
   (forall u, In u (users d') ->
      (u_email u = r_email live_row /\ u_password_hash u = const_hash "NewPass1") \/
      (In u (users db_with_token) /\ u_email u <> r_email live_row))).
Proof.
  split; [reflexivity|].
  apply (X4_reset_password_postcondition "T" "NewPass1" const_hash 1000 db_with_token
           live_row []). reflexivity.
Defined.

Lemma X5_reset_password_other_tokens_witness :
  "U" <> "T" /\
  (let d' := st_db (snd (reset_password "T" "NewPass1" const_hash 1000
                           (mkSt db_two_tokens 3))) in
   incl (password_resets d') (password_resets db_two_tokens) /\
   select_valid_resets d' "U" 1000 = select_valid_resets db_two_tokens "U" 1000).
Proof.
  split; [discriminate|].
  apply (X5_reset_password_other_tokens "T" "NewPass1" const_hash 1000 db_two_tokens 3
           "U" 1000). discriminate.
Defined.

Lemma X6_token_shape_witness :
  length (repeat Byte.x2a 32) = 32%nat /\
  String.length (Token.generate_token (repeat Byte.x2a 32)) = 64%nat /\
  (forall i c, String.get i (Token.generate_token (repeat Byte.x2a 32)) = Some c ->
     exists k, (k < 16)%nat /\ c = Token.hex_digit k).
Proof.
  split; [reflexivity|]. apply Token.X6_token_shape. reflexivity.
Defined.

Lemma X7_hex_encode_injective_witness :
  Token.hex_encode [Byte.x2a] = Token.hex_encode [Byte.x2a] /\ [Byte.x2a] = [Byte.x2a].
Proof.
  split; [reflexivity|]. apply Token.X7_hex_encode_injective. reflexivity.
Defined.

Definition login_body :=
  Client.JObj [("access_token", Client.JStr "jwt")].
Definition env_login_ok : Client.env :=
  Client.mkEnv (fun _ => Client.FetchResponse true (Some login_body)) true.

Lemma X9_login_session_witness :
  login_body <> Client.JUndef /\ login_body <> Client.JNull /\
  (let s' := snd (Client.AuthAPI_login env_login_ok "user@example.com" "Abcdefg1" []) in
   ClientSession.getAuthHeaders (fun _ => None) s' =
     [("Content-Type", "application/json");
      ("Authorization", "Bearer " ++
         ClientSession.js_String (ClientFacts.field login_body "access_token"))] /\
   ClientSession.isLoggedIn (fun _ => None) s' =
     negb (String.eqb (ClientSession.js_String
                         (ClientFacts.field login_body "access_token")) "")).
Proof.
  split; [discriminate|]. split; [discriminate|].
  apply (ClientSession.X9_login_session (fun _ => None) env_login_ok "user@example.com"
           "Abcdefg1" [] login_body); [reflexivity|split; discriminate|reflexivity].
Defined.

Lemma X11_getCurrentUser_throws_without_user_witness :
  ClientFacts.field login_body "user" = Client.JUndef /\
  ClientSession.getCurrentUser (fun _ => None) (fun _ => None)
    (snd (Client.AuthAPI_login env_login_ok "user@example.com" "Abcdefg1" []))
  = Client.Throw Client.SyntaxError.
Proof.
  split; [reflexivity|].
  apply (ClientSession.X11_getCurrentUser_throws_without_user (fun _ => None)
           (fun _ => None) env_login_ok "user@example.com" "Abcdefg1" [] login_body);
    [reflexivity|split; discriminate|reflexivity|reflexivity|reflexivity|reflexivity].
Defined.

Lemma X14_auth_check_witness :
  ExampleClient.no_slash "dashboard.html" /\
  ExampleClient.auth_check ("/app" ++ "/" ++ "dashboard.html") false = Some "login.html" /\
  ExampleClient.auth_check ("/app" ++ "/") false = None.
Proof.
  assert (H : ExampleClient.no_slash "dashboard.html").
  { intros i. do 14 (destruct i as [|i]; [discriminate|]). destruct i; discriminate. }
  split; [exact H|].
  apply (ExampleClient.X14_auth_check "/app" "dashboard.html" false H).
Defined.
